(** * fs.notify: the watch-state engine of [notify.js]

    A shallow embedding of [src/notify.js] and a verification of the
    properties stated for it.  The instance state ([FSWatchers], [FStats],
    [retries], [maxRetries]) is a record; the Node runtime that the source
    talks to (the [fs] module, the event emitter, the pending callbacks) is
    part of an explicit world that every method threads through a small
    state-and-exception monad. *)

From Stdlib Require Import ZArith.
From stdpp Require Import base gmap strings list.

Set Warnings "-clear-no-such-hyp".
Open Scope string_scope.
Open Scope list_scope.

(** ** Data *)

(** A JavaScript [Date]: an object (compared by identity with [!==]) that
    encodes an instant. *)
Record Date := { date_ref : nat; getTime : Z }.

(** [fs.Stats], the snapshot that [fs.stat] hands to its callback. *)
Record Stats := { mtime : Date; isDirectory : bool; st_size : Z }.

(** [fs.FSWatcher], tagged by [watch] with the path it was created for. *)
Record FSWatcher := { watcher_id : nat; path : string }.

(** The value of [this] inside a method: the instance, or [undefined] when a
    method is called unbound in strict mode. *)
Inductive This := this_instance | this_undefined.

(** The function expressions that the source passes to [fs.stat], each with
    the variables it closes over. *)
Inductive Callback :=
  | cb_watch_stats (self : This) (p : string)
  | cb_manually_stats (file : string) (current : Stats)
  | cb_change_stats (p : string) (filename : option string).

(** The values that reach an argument position of [fs.stat]. *)
Inductive Value :=
  | VUndefined
  | VString (s : string)
  | VFsModule
  | VFunction (k : Callback).

Inductive Exn :=
  | TypeError
  | ENOENT (p : string).

(** The public event stream: [emit('change', file, stat)],
    [emit('removed', path)] and [emit('close')]. *)
Inductive Event :=
  | change_event (file : option string) (stat : Stats)
  | removed_event (p : string)
  | close_event.

(** Calls into the [fs] module, in the order in which they are made. *)
Inductive Call :=
  | call_stat (a1 a2 : Value)
  | call_watch (p : string)
  | call_watcher_close (id : nat).

(** The instance, as the constructor lays it out. *)
Record Notify := {
  FSWatchers : gmap string FSWatcher;
  FStats : gmap string Stats;
  retries : gmap string nat;
  maxRetries : nat
}.

(** What the file system holds for a path. *)
Record Entry := { e_mtime : Z; e_isDirectory : bool; e_size : Z }.

Record World := {
  this : Notify;
  emitted : list Event;
  disk : gmap string Entry;
  open_watchers : gset nat;
  fresh : nat;
  inflight : list (string * Callback);
  calls : list Call
}.

(** ** Field updates *)

Definition set_FSWatchers (f : gmap string FSWatcher → gmap string FSWatcher)
    (n : Notify) : Notify :=
  {| FSWatchers := f (FSWatchers n); FStats := FStats n;
     retries := retries n; maxRetries := maxRetries n |}.

Definition set_FStats (f : gmap string Stats → gmap string Stats)
    (n : Notify) : Notify :=
  {| FSWatchers := FSWatchers n; FStats := f (FStats n);
     retries := retries n; maxRetries := maxRetries n |}.

Definition set_this (f : Notify → Notify) (w : World) : World :=
  {| this := f (this w); emitted := emitted w; disk := disk w;
     open_watchers := open_watchers w; fresh := fresh w;
     inflight := inflight w; calls := calls w |}.

Definition set_emitted (f : list Event → list Event) (w : World) : World :=
  {| this := this w; emitted := f (emitted w); disk := disk w;
     open_watchers := open_watchers w; fresh := fresh w;
     inflight := inflight w; calls := calls w |}.

Definition set_disk (f : gmap string Entry → gmap string Entry) (w : World) : World :=
  {| this := this w; emitted := emitted w; disk := f (disk w);
     open_watchers := open_watchers w; fresh := fresh w;
     inflight := inflight w; calls := calls w |}.

Definition set_open_watchers (f : gset nat → gset nat) (w : World) : World :=
  {| this := this w; emitted := emitted w; disk := disk w;
     open_watchers := f (open_watchers w); fresh := fresh w;
     inflight := inflight w; calls := calls w |}.

Definition set_fresh (f : nat → nat) (w : World) : World :=
  {| this := this w; emitted := emitted w; disk := disk w;
     open_watchers := open_watchers w; fresh := f (fresh w);
     inflight := inflight w; calls := calls w |}.

Definition set_inflight
    (f : list (string * Callback) → list (string * Callback)) (w : World) : World :=
  {| this := this w; emitted := emitted w; disk := disk w;
     open_watchers := open_watchers w; fresh := fresh w;
     inflight := f (inflight w); calls := calls w |}.

Definition set_calls (f : list Call → list Call) (w : World) : World :=
  {| this := this w; emitted := emitted w; disk := disk w;
     open_watchers := open_watchers w; fresh := fresh w;
     inflight := inflight w; calls := f (calls w) |}.

(** ** The monad of methods: world passing with JavaScript exceptions

    A [throw] keeps every change made to the world before it. *)

Inductive Completion (A : Type) :=
  | Normal (a : A)
  | Throw (e : Exn).
Arguments Normal {A} a.
Arguments Throw {A} e.

Definition M (A : Type) : Type := World → Completion A * World.

Definition ret {A} (a : A) : M A := λ w, (Normal a, w).

Definition bind {A B} (m : M A) (f : A → M B) : M B := λ w,
  match m w with
  | (Normal a, w') => f a w'
  | (Throw e, w') => (Throw e, w')
  end.

Definition throw {A} (e : Exn) : M A := λ w, (Throw e, w).

Definition get_this : M Notify := λ w, (Normal (this w), w).

Definition update (f : World → World) : M unit := λ w, (Normal tt, f w).

Notation "x <- m ;; k" := (bind m (λ x, k))
  (at level 100, m at next level, right associativity).
Notation "m ;; k" := (bind m (λ _, k))
  (at level 100, right associativity).

(** [Array.prototype.forEach]: the first throw ends the loop. *)
Fixpoint forEach {A} (f : A → M unit) (l : list A) : M unit :=
  match l with
  | [] => ret tt
  | x :: l' => f x ;; forEach f l'
  end.

(** ** The runtime: event emitter and [fs] *)

(** [this.emit(...)]: subscribers see the event at once. *)
Definition emit (e : Event) : M unit := update (set_emitted (λ l, l ++ [e])).

Definition log (c : Call) : M unit := update (set_calls (λ l, l ++ [c])).

(** [fs.stat(path, callback)].  Node accepts a string path with a function
    callback and queues the request; a path argument that is not a string
    (or a missing callback) is refused with a [TypeError] thrown from the
    call itself, and the function passed along is never called. *)
Definition fs_stat (a1 a2 : Value) : M unit :=
  log (call_stat a1 a2) ;;
  match a1, a2 with
  | VString p, VFunction k => update (set_inflight (λ l, l ++ [(p, k)]))
  | _, _ => throw TypeError
  end.

(** [fs.watch(path)]: a new open watcher for a path that exists, [ENOENT]
    thrown for one that does not. *)
Definition fs_watch (p : string) : M nat :=
  log (call_watch p) ;;
  λ w, match disk w !! p with
       | Some _ =>
           (Normal (fresh w),
            set_fresh S (set_open_watchers (λ s, {[fresh w]} ∪ s) w))
       | None => (Throw (ENOENT p), w)
       end.

(** [FSWatcher.close()]: releases the handle; closing twice is harmless. *)
Definition watcher_close (h : FSWatcher) : M unit :=
  log (call_watcher_close (watcher_id h)) ;;
  update (set_open_watchers (λ s, s ∖ {[watcher_id h]})).

(** ['close' in FSWatcher]: every [fs.FSWatcher] has the method. *)
Definition has_close (h : FSWatcher) : bool := true.

(** Truthiness of a string, and of a parameter that may be missing. *)
Definition truthy (s : string) : bool := negb (String.eqb s "").

Definition truthy_opt (o : option string) : bool :=
  match o with
  | Some s => truthy s
  | None => false
  end.

(** [a !== b] on two objects: they are not the same object. *)
Definition strict_neq (a b : Date) : bool := negb (date_ref a =? date_ref b)%nat.

(** Reading a property of a value that may be [undefined]. *)
Definition member_of {A} (o : option A) : M A :=
  match o with
  | Some a => ret a
  | None => throw TypeError
  end.

(** ** The instance *)

(** [this.FSWatcher]: the constructor writes [FSWatchers], [FStats],
    [retries] and [maxRetries]; neither it nor a prototype defines a property
    named [FSWatcher], so the read yields [undefined]. *)
Definition this_FSWatcher (n : Notify) : option (gmap string FSWatcher) := None.

(** [Object.keys]. *)
Definition keys {A} (m : gmap string A) : list string := (map_to_list m).*1.

(** ** The methods of [Notify.prototype] *)

(** [function stats(err, stat)] of [watch]. *)
Definition watch_stats (self : This) (p : string)
    (err : option Exn) (stat : option Stats) : M unit :=
  match stat with
  | Some s =>
      match self with
      | this_instance => update (set_this (set_FStats <[p := s]>))
      | this_undefined => throw TypeError
      end
  | None => ret tt
  end.

(** [Notify.prototype.watch].  The target [this.FSWatchers] of the
    assignment is evaluated before its right-hand side [fs.watch(path)].
    The listeners bound to the new watcher are [change] and [error] below;
    the runtime calls them with that watcher as first argument. *)
Definition watch (this_ : This) (p : string) : M unit :=
  let self := this_ in
  fs_stat (VString p) (VFunction (cb_watch_stats self p)) ;;
  match this_ with
  | this_undefined => throw TypeError
  | this_instance =>
      id <- fs_watch p ;;
      let FSWatcher := {| watcher_id := id; path := p |} in
      update (set_this (set_FSWatchers <[p := FSWatcher]>))
  end.

(** [function stats(err, stat)] of [manually]. *)
Definition manually_stats (file : string) (current : Stats)
    (err : option Exn) (stat : option Stats) : M unit :=
  match stat, err with
  | Some s, None =>
      if strict_neq (mtime current) (mtime s)
      then emit (change_event (Some file) s)
      else ret tt
  | _, _ => ret tt
  end.

(** [function test(file)] of [manually]: [fs.stat] gets the callback as its
    only argument. *)
Definition test (file : string) : M unit :=
  n <- get_this ;;
  match FStats n !! file with
  | None => ret tt
  | Some current => fs_stat (VFunction (cb_manually_stats file current)) VUndefined
  end.

(** [Notify.prototype.manually]. *)
Definition manually (FSWatcher : option FSWatcher) : M unit :=
  n <- get_this ;;
  let files :=
    match FSWatcher with
    | Some h => if truthy (path h) then [path h] else keys (FStats n)
    | None => keys (FStats n)
    end in
  forEach test files.

(** [function stats(err, stat)] of [change]; [stat.isDirectory()] on a
    missing [stat] throws. *)
Definition change_stats (p : string) (filename : option string)
    (err : option Exn) (stat : option Stats) : M unit :=
  match stat with
  | Some s => update (set_this (set_FStats <[p := s]>))
  | None => ret tt
  end ;;
  match err with
  | Some _ => ret tt
  | None =>
      s <- member_of stat ;;
      let file := if isDirectory s then filename else Some p in
      emit (change_event file s)
  end.

(** [Notify.prototype.change]: [fs.stat] gets the module [fs] as its path. *)
Definition change (FSWatcher : FSWatcher) (event : string)
    (filename : option string) : M unit :=
  (if negb (truthy_opt filename) then manually (Some FSWatcher) else ret tt) ;;
  let p := path FSWatcher in
  fs_stat VFsModule (VFunction (cb_change_stats p filename)).

(** [Notify.prototype.error]: [delete this.FSWatcher[path]] reads
    [this.FSWatcher] first. *)
Definition error (FSWatcher : FSWatcher) (err : Exn) : M unit :=
  let p := path FSWatcher in
  n <- get_this ;;
  _ <- member_of (this_FSWatcher n) ;;
  update (set_this (set_FStats (delete p))) ;;
  emit (removed_event p).

(** [Notify.prototype.reset]. *)
Definition reset (p : string) : M unit :=
  n <- get_this ;;
  ws <- member_of (this_FSWatcher n) ;;
  FSWatcher <- member_of (ws !! p) ;;
  watcher_close FSWatcher ;;
  _ <- member_of (this_FSWatcher n) ;;
  update (set_this (set_FStats (delete p))) ;;
  watch this_instance p.

(** [Notify.prototype.close]. *)
Definition close : M unit :=
  n <- get_this ;;
  forEach (λ kv, if has_close kv.2 then watcher_close kv.2 else ret tt)
          (map_to_list (FSWatchers n)) ;;
  update (set_this (set_FSWatchers (λ _, ∅))) ;;
  update (set_this (set_FStats (λ _, ∅))) ;;
  emit close_event.

(** The argument of [add]: one path or an array of paths. *)
Inductive Files :=
  | one_path (p : string)
  | path_array (ps : list string).

(** [fs.exists(path, callback)], the existence test of the [fs] module. *)
Definition fs_exists (p : string) : M bool :=
  λ w, (Normal (bool_decide (is_Some (disk w !! p))), w).

(** The properties of the [fs] module that can serve as a truth test;
    a name that the module does not define reads as [undefined]. *)
Definition fs_property (name : string) : option (string → M bool) :=
  if String.eqb name "exists" then Some fs_exists else None.

(** [async.filter(arr, iterator, callback)] of the [async] package: the
    callback gets the elements that pass the truth test [iterator].  The
    test is applied to every element of a non-empty array, so one that is
    not a function throws on the first element; the checks are taken at the
    time of the call. *)
Fixpoint filterM (iterator : string → M bool) (arr : list string) : M (list string) :=
  match arr with
  | [] => ret []
  | x :: arr' =>
      b <- iterator x ;;
      rest <- filterM iterator arr' ;;
      ret (if b : bool then x :: rest else rest)
  end.

Definition async_filter (arr : list string) (iterator : option (string → M bool))
    (callback : list string → M unit) : M unit :=
  match arr with
  | [] => callback []
  | _ :: _ =>
      f <- member_of iterator ;;
      kept <- filterM f arr ;;
      callback kept
  end.

(** [Notify.prototype.add]: the truth test is [fs.exist], and [forEach]
    calls [self.watch] as a plain function. *)
Definition add (files : Files) : M unit :=
  let files :=
    match files with
    | path_array ps => ps
    | one_path p => [p]
    end in
  async_filter files (fs_property "exist")
    (λ files, forEach (watch this_undefined) files).

(** [function Notify(files)]. *)
Definition new_Notify (files : option Files) : M unit :=
  update (set_this (λ _, {| FSWatchers := ∅; FStats := ∅; retries := ∅;
                            maxRetries := 5 |})) ;;
  match files with
  | Some (one_path "") | None => ret tt
  | Some fs => add fs
  end.

(** ** The environment: completions, notifications, file-system changes *)

(** What a stat of [p] answers now: a new [Stats] object with a new [Date],
    or an error and no [Stats]. *)
Definition stat_now (p : string) : M (option Exn * option Stats) := λ w,
  match disk w !! p with
  | Some e =>
      (Normal (None,
               Some {| mtime := {| date_ref := fresh w; getTime := e_mtime e |};
                       isDirectory := e_isDirectory e;
                       st_size := e_size e |}),
       set_fresh S w)
  | None => (Normal (Some (ENOENT p), None), w)
  end.

Definition call_back (k : Callback) (err : option Exn) (stat : option Stats) : M unit :=
  match k with
  | cb_watch_stats self p => watch_stats self p err stat
  | cb_manually_stats file current => manually_stats file current err stat
  | cb_change_stats p filename => change_stats p filename err stat
  end.

(** The [i]-th queued stat request completes (requests may complete in any
    order). *)
Definition complete (i : nat) : M unit := λ w,
  match inflight w !! i with
  | None => (Normal tt, w)
  | Some (p, k) =>
      (update (set_inflight (delete i)) ;;
       r <- stat_now p ;;
       call_back k r.1 r.2) w
  end.

(** One thing that happens to an instance: a method call, a callback of the
    runtime, or a change of the file system. *)
Inductive Op :=
  | op_add (files : Files)
  | op_close
  | op_watch (p : string)
  | op_manually (h : option FSWatcher)
  | op_reset (p : string)
  | op_change (h : FSWatcher) (event : string) (filename : option string)
  | op_error (h : FSWatcher) (err : Exn)
  | op_complete (i : nat)
  | op_write (p : string) (e : Entry)
  | op_unlink (p : string).

Definition run (o : Op) : M unit :=
  match o with
  | op_add files => add files
  | op_close => close
  | op_watch p => watch this_instance p
  | op_manually h => manually h
  | op_reset p => reset p
  | op_change h event filename => change h event filename
  | op_error h err => error h err
  | op_complete i => complete i
  | op_write p e => update (set_disk <[p := e]>)
  | op_unlink p => update (set_disk (delete p))
  end.

(** An exception leaves the world as the throwing call left it. *)
Definition step (w : World) (o : Op) : World := (run o w).2.

Definition exec (os : list Op) (w : World) : World := foldl step w os.

(** A new instance, [new Notify()], over a file system [d]. *)
Definition boot (d : gmap string Entry) : World :=
  {| this := {| FSWatchers := ∅; FStats := ∅; retries := ∅; maxRetries := 5 |};
     emitted := []; disk := d; open_watchers := ∅; fresh := 0;
     inflight := []; calls := [] |}.

Definition reachable (w : World) : Prop :=
  ∃ d os, w = exec os (boot d).

(** The events of one kind in a stream. *)
Definition is_close_event (e : Event) : bool :=
  match e with close_event => true | _ => false end.

Definition is_removed_event (p : string) (e : Event) : bool :=
  match e with removed_event q => String.eqb p q | _ => false end.

Definition count_events (f : Event → bool) (l : list Event) : nat :=
  length (List.filter f l).


(** ** Runs that keep the two maps in step

    A run is calm when every registration is of a path that exists, every
    initial stat finds its path, and [close] is not called while a stat is
    in flight. *)
Definition calm (w : World) (o : Op) : bool :=
  match o with
  | op_watch p => bool_decide (is_Some (disk w !! p))
  | op_close => match inflight w with [] => true | _ :: _ => false end
  | op_complete i =>
      match inflight w !! i with
      | Some (p, _) => bool_decide (is_Some (disk w !! p))
      | None => true
      end
  | _ => true
  end.

Fixpoint calm_run (os : list Op) (w : World) : bool :=
  match os with
  | [] => true
  | o :: os' => calm w o && calm_run os' (step w o)
  end.

(** Worlds that differ in the log of [fs] calls only. *)
Definition same_but_calls (w w' : World) : Prop :=
  this w' = this w ∧ emitted w' = emitted w ∧ disk w' = disk w ∧
  open_watchers w' = open_watchers w ∧ fresh w' = fresh w ∧
  inflight w' = inflight w.

(** The calls that a method added to the log. *)
Definition new_calls (w w' : World) : list Call := drop (length (calls w)) (calls w').

(** ** Sample worlds *)

Definition a_txt : Entry := {| e_mtime := 100; e_isDirectory := false; e_size := 3 |}.
Definition a_dir : Entry := {| e_mtime := 50; e_isDirectory := true; e_size := 0 |}.

(** A directory ["/d"] registered, its initial stat still in flight. *)
Definition dir_registered : World := exec [op_watch "/d"] (boot {["/d" := a_dir]}).

(** The same once the initial stat has completed. *)
Definition dir_watched : World := exec [op_complete 0] dir_registered.

Definition handle_d : FSWatcher := {| watcher_id := 0; path := "/d" |}.

(** A file ["/tmp/a.txt"] watched and cached. *)
Definition file_watched : World :=
  exec [op_watch "/tmp/a.txt"; op_complete 0] (boot {["/tmp/a.txt" := a_txt]}).

Definition handle_a : FSWatcher := {| watcher_id := 0; path := "/tmp/a.txt" |}.

(** The file is then deleted while it is watched. *)
Definition file_gone : World := exec [op_unlink "/tmp/a.txt"] file_watched.

(** Every registered handle carries the path it is stored under and is
    open. *)
Definition registered_ok (w : World) : Prop :=
  ∀ p h, FSWatchers (this w) !! p = Some h →
         path h = p ∧ watcher_id h ∈ open_watchers w.

(** The only stat requests in flight are the initial stats of [watch]. *)
Definition flights_ok (w : World) : Prop :=
  ∀ p k, (p, k) ∈ inflight w → k = cb_watch_stats this_instance p.

(** The watched paths are the cached paths and those whose initial stat is
    in flight. *)
Definition keys_in_step (w : World) : Prop :=
  dom (FSWatchers (this w))
  = dom (FStats (this w)) ∪ list_to_set (inflight w).*1.

(** ["/tmp/a.txt"] is watched and cached, then written to. *)
Definition file_touched : World :=
  exec [op_write "/tmp/a.txt" {| e_mtime := 200; e_isDirectory := false; e_size := 4 |}]
       file_watched.

Definition snapshot_cached : Stats :=
  {| mtime := {| date_ref := 1; getTime := 100 |}; isDirectory := false; st_size := 3 |}.

Definition snapshot_fresh : Stats :=
  {| mtime := {| date_ref := 2; getTime := 200 |}; isDirectory := false; st_size := 4 |}.

(** ["/tmp/a.txt"] is registered and deleted before its initial stat comes
    back: the stat fails and the path stays in [FSWatchers] alone. *)
Definition stat_failed : World :=
  exec [op_watch "/tmp/a.txt"; op_unlink "/tmp/a.txt"; op_complete 0]
       (boot {["/tmp/a.txt" := a_txt]}).

(** ["/tmp/a.txt"] is registered and [close()] is called before its initial
    stat comes back: the stat then fills [FStats] alone. *)
Definition closed_early : World :=
  exec [op_watch "/tmp/a.txt"; op_close; op_complete 0]
       (boot {["/tmp/a.txt" := a_txt]}).

(** ["/d"] is registered twice in a row. *)
Definition registered_twice : World :=
  exec [op_watch "/d"; op_watch "/d"] (boot {["/d" := a_dir]}).

(** [Notify.watch(file, callback)], the static helper: it builds an
    instance for [[file]] and then subscribes [callback] to [change]; the
    subscription [.on('change', callback)] is the action [subscribe]. *)
Definition Notify_watch (file : string) (subscribe : M unit) : M unit :=
  new_Notify (Some (path_array [file])) ;;
  subscribe.

(** The calls of [close()] in a run. *)
Definition is_op_close (o : Op) : bool :=
  match o with op_close => true | _ => false end.

(** Every cached snapshot was made before the next object is. *)
Definition snapshots_older (w : World) : Prop :=
  ∀ p s, FStats (this w) !! p = Some s → date_ref (mtime s) < fresh w.

(** Every registered handle was made before the next object is. *)
Definition handles_older (w : World) : Prop :=
  ∀ p h, FSWatchers (this w) !! p = Some h → watcher_id h < fresh w.

(** The handles stored in a watcher map. *)
Definition handle_ids (m : gmap string FSWatcher) : gset nat :=
  list_to_set (watcher_id <$> (map_to_list m).*2).

(** The snapshot that a stat of an entry yields when [n] is the next object
    identity. *)
Definition snapshot_of (n : nat) (e : Entry) : Stats :=
  {| mtime := {| date_ref := n; getTime := e_mtime e |};
     isDirectory := e_isDirectory e; st_size := e_size e |}.

(** * Verification *)

(** ** Basic facts about the methods *)

Ltac run_monad :=
  unfold bind, ret, update, throw, get_this, emit, log, member_of; simpl.

Lemma same_but_calls_refl w : same_but_calls w w.
Proof. by repeat split. Qed.

Lemma same_but_calls_trans w1 w2 w3 :
  same_but_calls w1 w2 → same_but_calls w2 w3 → same_but_calls w1 w3.
Proof.
  unfold same_but_calls. intros (?&?&?&?&?&?) (?&?&?&?&?&?).
  repeat split; congruence.
Qed.

Lemma same_but_calls_log w c : same_but_calls w (set_calls (λ l, l ++ [c]) w).
Proof. by repeat split. Qed.

(** [this.FSWatcher] is [undefined], so [reset] stops at its first line. *)
Lemma reset_throws p w : reset p w = (Throw TypeError, w).
Proof. reflexivity. Qed.

(** [error] stops at [delete this.FSWatcher[path]]. *)
Lemma error_throws h e w : error h e w = (Throw TypeError, w).
Proof. reflexivity. Qed.

(** A stat request whose path argument is not a string is refused. *)
Lemma fs_stat_function k a2 w :
  fs_stat (VFunction k) a2 w =
  (Throw TypeError, set_calls (λ l, l ++ [call_stat (VFunction k) a2]) w).
Proof. reflexivity. Qed.

Lemma fs_stat_module a2 w :
  fs_stat VFsModule a2 w =
  (Throw TypeError, set_calls (λ l, l ++ [call_stat VFsModule a2]) w).
Proof. reflexivity. Qed.

Lemma test_cached file current w :
  FStats (this w) !! file = Some current →
  test file w =
  (Throw TypeError,
   set_calls (λ l, l ++ [call_stat (VFunction (cb_manually_stats file current))
                                   VUndefined]) w).
Proof. intros H. unfold test. run_monad. by rewrite H. Qed.

Lemma test_unknown file w :
  FStats (this w) !! file = None → test file w = (Normal tt, w).
Proof. intros H. unfold test. run_monad. by rewrite H. Qed.

Lemma test_same file w : same_but_calls w (test file w).2.
Proof.
  destruct (FStats (this w) !! file) as [c|] eqn:H.
  - rewrite (test_cached _ c) by done. apply same_but_calls_log.
  - rewrite test_unknown by done. apply same_but_calls_refl.
Qed.

Lemma forEach_test_same l w : same_but_calls w (forEach test l w).2.
Proof.
  revert w. induction l as [|x l IH]; intros w; simpl.
  - apply same_but_calls_refl.
  - unfold bind. pose proof (test_same x w) as Hx.
    destruct (test x w) as [[[]|e] w']; simpl in *; [|done].
    eapply same_but_calls_trans; [exact Hx|apply IH].
Qed.

Lemma manually_same h w : same_but_calls w (manually h w).2.
Proof. unfold manually. run_monad. apply forEach_test_same. Qed.

(** With a handle whose path is not empty the sweep looks at that path and
    at nothing else. *)
Lemma manually_scoped h w :
  truthy (path h) = true → manually (Some h) w = test (path h) w.
Proof.
  intros Hp. unfold manually. run_monad. rewrite Hp. simpl. unfold bind, ret.
  by destruct (test (path h) w) as [[[]|e] w'].
Qed.

Lemma change_same h ev filename w : same_but_calls w (change h ev filename w).2.
Proof.
  unfold change, bind.
  assert (Hm : ∀ m : M unit, (∀ w, same_but_calls w (m w).2) →
    same_but_calls w
      (match m w with
       | (Normal _, w') =>
           fs_stat VFsModule (VFunction (cb_change_stats (path h) filename)) w'
       | (Throw e, w') => (Throw e, w')
       end).2).
  { intros m Hm. pose proof (Hm w) as H. destruct (m w) as [[[]|e] w']; [|done].
    eapply same_but_calls_trans; [exact H|]. rewrite fs_stat_module. apply same_but_calls_log. }
  destruct (negb (truthy_opt filename)).
  - apply Hm. intros w0. apply manually_same.
  - apply Hm. intros w0. apply same_but_calls_refl.
Qed.

(** [forEach(self.watch)] calls [watch] with [this] undefined: the stat is
    requested, and the assignment to [this.FSWatchers] throws before
    [fs.watch] is reached. *)
Lemma watch_unbound p w :
  watch this_undefined p w =
  (Throw TypeError,
   set_inflight (λ l, l ++ [(p, cb_watch_stats this_undefined p)])
     (set_calls (λ l, l ++ [call_stat (VString p)
                              (VFunction (cb_watch_stats this_undefined p))]) w)).
Proof. reflexivity. Qed.

(** [fs.exist] is not a property of the [fs] module. *)
Lemma fs_exist_undefined : fs_property "exist" = None.
Proof. reflexivity. Qed.

(** [add] changes nothing at all: on an empty array the callback has no
    path to register, otherwise calling the truth test throws. *)
Lemma add_inert files w : (add files w).2 = w.
Proof. by destruct files as [p|[|p ps]]. Qed.

Lemma add_throws_one p w : add (one_path p) w = (Throw TypeError, w).
Proof. reflexivity. Qed.

Lemma add_throws_array p ps w : add (path_array (p :: ps)) w = (Throw TypeError, w).
Proof. reflexivity. Qed.

(** ** [close] *)

Lemma close_loop l w :
  ∃ w',
    forEach (λ kv : string * FSWatcher,
               if has_close kv.2 then watcher_close kv.2 else ret tt) l w
    = (Normal tt, w') ∧
    this w' = this w ∧ emitted w' = emitted w ∧ disk w' = disk w ∧
    inflight w' = inflight w ∧ fresh w' = fresh w ∧
    open_watchers w' = open_watchers w ∖ list_to_set (watcher_id <$> l.*2).
Proof.
  revert w. induction l as [|[k h] l IH]; intros w; simpl.
  - exists w. repeat split; try done. set_solver.
  - unfold bind at 1. unfold watcher_close. run_monad.
    edestruct IH as (w' & -> & Ht & He & Hd & Hi & Hf & Ho).
    exists w'. simpl in *. repeat split; try done.
    rewrite Ho. set_solver.
Qed.

(** [close] returns normally, empties both maps, emits one [close] event,
    releases every registered handle and touches nothing else. *)
Lemma close_spec w :
  ∃ w',
    close w = (Normal tt, w') ∧
    FSWatchers (this w') = ∅ ∧ FStats (this w') = ∅ ∧
    retries (this w') = retries (this w) ∧
    maxRetries (this w') = maxRetries (this w) ∧
    emitted w' = emitted w ++ [close_event] ∧
    disk w' = disk w ∧ inflight w' = inflight w ∧ fresh w' = fresh w ∧
    (∀ p h, FSWatchers (this w) !! p = Some h → watcher_id h ∉ open_watchers w').
Proof.
  unfold close. unfold bind at 1. unfold get_this.
  destruct (close_loop (map_to_list (FSWatchers (this w))) w)
    as (w' & Hl & Ht & He & Hd & Hi & Hf & Ho).
  unfold bind at 1. rewrite Hl. run_monad.
  eexists. split; [reflexivity|]. simpl.
  rewrite Ht, He, Hd, Hi, Hf. repeat split; try done.
  intros p h Hp. rewrite Ho.
  assert (watcher_id h ∈@{gset nat}
          list_to_set (watcher_id <$> (map_to_list (FSWatchers (this w))).*2)).
  { apply elem_of_list_to_set, list_elem_of_fmap. exists h. split; [done|].
    apply list_elem_of_fmap. exists (p, h). split; [done|].
    by apply elem_of_map_to_list. }
  set_solver.
Qed.

(** C6, as stated, fails: two calls of [close()] on a watched directory
    leave two [close] events in the stream, not one. *)
Lemma close_twice_emits_twice :
  count_events is_close_event (emitted (exec [op_close; op_close] dir_watched)) = 2
  ∧ count_events is_close_event (emitted (exec [op_close; op_close] dir_watched)) ≠ 1.
Proof. split; [vm_compute; reflexivity | vm_compute; discriminate]. Qed.

(** C6, amended: calling [close()] twice in succession produces one [close]
    event per call, two in total, both calls return normally, and after each
    of the two calls [FSWatchers] and [FStats] are empty. *)
Theorem close_twice (w : World) :
  let wa := step w op_close in
  let wb := step wa op_close in
  (close w).1 = Normal tt ∧ (close wa).1 = Normal tt ∧
  FSWatchers (this wa) = ∅ ∧ FStats (this wa) = ∅ ∧
  FSWatchers (this wb) = ∅ ∧ FStats (this wb) = ∅ ∧
  emitted wa = emitted w ++ [close_event] ∧
  emitted wb = emitted w ++ [close_event; close_event] ∧
  count_events is_close_event (emitted wb)
  = 2 + count_events is_close_event (emitted w).
Proof.
  intros wa wb. subst wb wa. unfold step. simpl.
  destruct (close_spec w) as (wa & Ha & Hw & Hs & _ & _ & He & _).
  rewrite Ha. simpl.
  destruct (close_spec wa) as (wb & Hb & Hw' & Hs' & _ & _ & He' & _).
  rewrite Hb. simpl.
  repeat split; try done.
  - by rewrite He', He, <- app_assoc.
  - rewrite He', He. unfold count_events.
    rewrite !List.filter_app, !length_app. simpl. lia.
Qed.

(** C10: [close()] leaves the retry counters and [maxRetries] as they were;
    of the instance it rewrites [FSWatchers] and [FStats] only. *)
Theorem close_keeps_retries (w : World) :
  retries (this (step w op_close)) = retries (this w) ∧
  maxRetries (this (step w op_close)) = maxRetries (this w) ∧
  this (step w op_close) =
    {| FSWatchers := ∅; FStats := ∅;
       retries := retries (this w); maxRetries := maxRetries (this w) |}.
Proof.
  unfold step. simpl.
  destruct (close_spec w) as (w' & Hc & Hw & Hs & Hr & Hm & _).
  rewrite Hc. simpl. repeat split; try done.
  destruct (this w') as [a b c d]. simpl in *. congruence.
Qed.

(** ** The change handler *)

(** What [function stats] of [change] does once it is handed a snapshot:
    it caches it under the handle's path and emits a change for the file
    name when the snapshot is a directory, for the path otherwise. *)
Lemma change_stats_resolves p filename s w :
  change_stats p filename None (Some s) w =
  (Normal tt,
   set_emitted (λ l, l ++ [change_event (if isDirectory s then filename else Some p) s])
     (set_this (set_FStats <[p := s]>) w)).
Proof. reflexivity. Qed.

(** Handed an error and no snapshot, both stat callbacks return without a
    trace. *)
Lemma change_stats_failure_silent p filename e w :
  change_stats p filename (Some e) None w = (Normal tt, w).
Proof. reflexivity. Qed.

Lemma manually_stats_failure_silent file current e stat w :
  manually_stats file current (Some e) stat w = (Normal tt, w).
Proof. by destruct stat. Qed.

(** With a file name the handler goes straight to [fs.stat(fs, ...)], which
    is refused: no request is queued, so [function stats] never runs. *)
Lemma change_named_throws h ev f w :
  truthy f = true →
  change h ev (Some f) w =
  (Throw TypeError,
   set_calls (λ l, l ++ [call_stat VFsModule
                           (VFunction (cb_change_stats (path h) (Some f)))]) w).
Proof. intros Hf. unfold change. simpl. rewrite Hf. reflexivity. Qed.

(** C1, on the code: the directory ["/d"] is watched and cached and the
    notification [(handle_d, "change", "F")] arrives.  The handler asks
    [fs.stat] about the module [fs], not about ["/d"]; the call throws, no
    stat of ["/d"] is in flight afterwards and no [change] event is
    emitted. *)
Theorem change_in_directory_emits_nothing :
  let r := change handle_d "change" (Some "F") dir_watched in
  FSWatchers (this dir_watched) !! "/d" = Some handle_d ∧
  disk dir_watched !! "/d" = Some a_dir ∧
  r.1 = Throw TypeError ∧
  emitted r.2 = [] ∧
  inflight r.2 = [] ∧
  new_calls dir_watched r.2
  = [call_stat VFsModule (VFunction (cb_change_stats "/d" (Some "F")))].
Proof. vm_compute. by repeat split. Qed.

(** C8, on the code: ["/tmp/a.txt"] is watched and cached and has just been
    deleted, so a stat of it would fail.  A notification for its handle and
    a manual sweep over it both end in a [TypeError] thrown out of the
    method, because neither hands [fs.stat] the path. *)
Theorem stat_failure_not_silent :
  disk file_gone !! "/tmp/a.txt" = None ∧
  FSWatchers (this file_gone) !! "/tmp/a.txt" = Some handle_a ∧
  is_Some (FStats (this file_gone) !! "/tmp/a.txt") ∧
  (change handle_a "rename" (Some "a.txt") file_gone).1 = Throw TypeError ∧
  (manually (Some handle_a) file_gone).1 = Throw TypeError.
Proof. vm_compute. repeat split; try done. by eexists. Qed.

(** ** [error] and [reset] *)

(** C2, on the code: ["/tmp/a.txt"] is watched and cached and the error
    callback fires for its handle.  [delete this.FSWatcher[path]] throws, so
    the path stays in both maps and no [removed] event is emitted. *)
Theorem error_tears_nothing_down :
  let r := error handle_a (ENOENT "/tmp/a.txt") file_watched in
  r.1 = Throw TypeError ∧
  FSWatchers (this r.2) !! "/tmp/a.txt" = Some handle_a ∧
  is_Some (FStats (this r.2) !! "/tmp/a.txt") ∧
  count_events (is_removed_event "/tmp/a.txt") (emitted r.2) = 0.
Proof. vm_compute. repeat split; try done. by eexists. Qed.

(** C7, on the code: ["/d"] is watched and [reset("/d")] is called.
    [this.FSWatcher[path]] throws at once: the old handle stays registered
    and open, and neither [close] nor [fs.watch] is called. *)
Theorem reset_keeps_old_handle :
  let r := reset "/d" dir_watched in
  r.1 = Throw TypeError ∧
  FSWatchers (this r.2) !! "/d" = Some handle_d ∧
  FSWatchers (this dir_watched) !! "/d" = Some handle_d ∧
  0 ∈ open_watchers r.2 ∧
  new_calls dir_watched r.2 = [].
Proof.
  rewrite reset_throws. simpl. repeat split; vm_compute; reflexivity.
Qed.

(** ** [add] *)

(** C5, on the code: ["/tmp/a.txt"] exists and is passed to [add].  The
    truth test handed to [async.filter] is [fs.exist], which is undefined;
    calling it throws and the existing path is not registered. *)
Theorem add_registers_no_existing_path :
  let w := boot {["/tmp/a.txt" := a_txt]} in
  let r := add (path_array ["/tmp/a.txt"]) w in
  is_Some (disk w !! "/tmp/a.txt") ∧
  r.1 = Throw TypeError ∧
  FSWatchers (this r.2) !! "/tmp/a.txt" = None ∧
  FStats (this r.2) !! "/tmp/a.txt" = None ∧
  inflight r.2 = [] ∧ calls r.2 = [].
Proof. vm_compute. repeat split; try done. by eexists. Qed.

(** ** A notification without a file name *)

Lemma new_calls_log w c : new_calls w (set_calls (λ l, l ++ [c]) w) = [c].
Proof. unfold new_calls. simpl. by rewrite drop_app_length. Qed.

(** The two ways the handler can go when the file name is missing: a cached
    path makes the sweep ask for a stat, an unknown one lets the sweep
    return and the handler reaches [fs.stat(fs, ...)]. *)
Lemma change_unnamed_cached h ev filename current w :
  truthy_opt filename = false → truthy (path h) = true →
  FStats (this w) !! path h = Some current →
  change h ev filename w =
  (Throw TypeError,
   set_calls (λ l, l ++ [call_stat (VFunction (cb_manually_stats (path h) current))
                                   VUndefined]) w).
Proof.
  intros Hf Hp Hc. unfold change. rewrite Hf. simpl. unfold bind at 1.
  rewrite manually_scoped by done. by rewrite (test_cached _ current).
Qed.

Lemma change_unnamed_unknown h ev filename w :
  truthy_opt filename = false → truthy (path h) = true →
  FStats (this w) !! path h = None →
  change h ev filename w =
  (Throw TypeError,
   set_calls (λ l, l ++ [call_stat VFsModule
                           (VFunction (cb_change_stats (path h) filename))]) w).
Proof.
  intros Hf Hp Hc. unfold change. rewrite Hf. simpl. unfold bind at 1.
  rewrite manually_scoped by done. by rewrite test_unknown.
Qed.

(** C3, as stated, fails: ["/d"] is registered and its first stat has not
    come back, so nothing is cached for it.  On a notification without a
    file name the sweep finds nothing to compare and returns, and the
    handler goes on to the primary path: its [fs.stat] call is in the log. *)
Lemma change_unnamed_reaches_primary_path :
  let r := change handle_d "change" None dir_registered in
  FSWatchers (this dir_registered) !! "/d" = Some handle_d ∧
  manually (Some handle_d) dir_registered = (Normal tt, dir_registered) ∧
  new_calls dir_registered r.2
  = [call_stat VFsModule (VFunction (cb_change_stats "/d" None))] ∧
  r ≠ manually (Some handle_d) dir_registered.
Proof.
  simpl. split; [vm_compute; reflexivity|].
  assert (Hm : manually (Some handle_d) dir_registered = (Normal tt, dir_registered)).
  { rewrite manually_scoped by done. apply test_unknown. vm_compute. reflexivity. }
  rewrite Hm. split; [done|].
  rewrite (change_unnamed_unknown handle_d "change" None dir_registered);
    [|done|done|vm_compute; reflexivity].
  split; [apply new_calls_log|discriminate].
Qed.

(** C3, amended: on a notification whose file name is absent the handler
    runs the manual sweep over the handle's path and no other path, and it
    does not return after the sweep: when the sweep returns, the primary
    re-stat call follows. *)
Theorem change_unnamed_sweeps_then_restats
    (w : World) (h : FSWatcher) (ev : string) (filename : option string) :
  truthy_opt filename = false →
  truthy (path h) = true →
  let primary := fs_stat VFsModule (VFunction (cb_change_stats (path h) filename)) in
  change h ev filename w = (test (path h) ;; primary) w ∧
  manually (Some h) w = test (path h) w ∧
  (∀ f cur a2,
     call_stat (VFunction (cb_manually_stats f cur)) a2
       ∈ new_calls w (change h ev filename w).2 →
     f = path h) ∧
  (∀ w', manually (Some h) w = (Normal tt, w') →
         change h ev filename w = primary w' ∧
         new_calls w (change h ev filename w).2
         = [call_stat VFsModule (VFunction (cb_change_stats (path h) filename))]).
Proof.
  intros Hf Hp primary. subst primary.
  assert (Hseq : change h ev filename w =
    (test (path h) ;; fs_stat VFsModule (VFunction (cb_change_stats (path h) filename))) w).
  { unfold change. rewrite Hf. simpl. unfold bind.
    by rewrite manually_scoped. }
  split; [exact Hseq|]. split; [by apply manually_scoped|].
  destruct (FStats (this w) !! path h) as [current|] eqn:Hc.
  - rewrite (change_unnamed_cached h ev filename current) by done.
    rewrite manually_scoped, (test_cached _ current) by done. simpl.
    rewrite new_calls_log. split; [|discriminate].
    intros f cur a2 Hin. apply list_elem_of_singleton in Hin. congruence.
  - rewrite change_unnamed_unknown by done.
    rewrite manually_scoped, test_unknown by done. simpl.
    rewrite new_calls_log. split.
    + intros f cur a2 Hin. apply list_elem_of_singleton in Hin. discriminate.
    + intros w' [= <-]. by rewrite fs_stat_module.
Qed.

(** The theorem at the directory whose first stat is still in flight. *)
Lemma change_unnamed_sweeps_then_restats_witness :
  truthy_opt None = false ∧ truthy (path handle_d) = true ∧
  change handle_d "change" None dir_registered
  = (test "/d" ;; fs_stat VFsModule (VFunction (cb_change_stats "/d" None)))
      dir_registered.
Proof.
  split; [reflexivity|]. split; [reflexivity|].
  exact (proj1 (change_unnamed_sweeps_then_restats
                  dir_registered handle_d "change" None eq_refl eq_refl)).
Defined.

(** ** The manual sweep *)

(** Neither the sweep nor its stat callback writes to the instance. *)
Lemma manually_stats_keeps_this file current err stat w :
  this (manually_stats file current err stat w).2 = this w.
Proof.
  unfold manually_stats.
  destruct stat as [s|], err as [e|]; try done.
  by destruct (strict_neq _ _).
Qed.

Lemma manually_keeps_this h w : this (manually h w).2 = this w.
Proof. by destruct (manually_same h w) as [? _]. Qed.

(** C4, as stated, fails: the cached snapshot of ["/tmp/a.txt"] is older
    than the file.  Handed the fresh snapshot, the sweep's callback emits
    the change and leaves the old snapshot in the cache; the sweep itself
    does not get that far, since its [fs.stat] call names no path, throws
    and queues no request. *)
Lemma manual_sweep_leaves_cache_stale :
  let r := manually_stats "/tmp/a.txt" snapshot_cached None (Some snapshot_fresh)
             file_touched in
  let m := manually (Some handle_a) file_touched in
  FStats (this file_touched) !! "/tmp/a.txt" = Some snapshot_cached ∧
  (stat_now "/tmp/a.txt" file_touched).1 = Normal (None, Some snapshot_fresh) ∧
  emitted r.2 = [change_event (Some "/tmp/a.txt") snapshot_fresh] ∧
  FStats (this r.2) !! "/tmp/a.txt" = Some snapshot_cached ∧
  FStats (this r.2) !! "/tmp/a.txt" ≠ Some snapshot_fresh ∧
  m.1 = Throw TypeError ∧ inflight m.2 = [] ∧
  FStats (this m.2) !! "/tmp/a.txt" = Some snapshot_cached.
Proof. vm_compute. repeat split; try done. Qed.

(** C4, amended: for a path with a cached snapshot, the callback that the
    sweep hands to [fs.stat] emits [change(path, freshSnapshot)] on a stat
    success whose modification time differs from the cached one; neither
    the sweep nor the callback writes the stat cache, so the entry keeps the
    cached snapshot whether or not an event was emitted. *)
Theorem manual_sweep_compares_without_refresh
    (w : World) (file : string) (current s : Stats) :
  FStats (this w) !! file = Some current →
  getTime (mtime current) ≠ getTime (mtime s) →
  (date_ref (mtime current) = date_ref (mtime s) → mtime current = mtime s) →
  let r := manually_stats file current None (Some s) w in
  r.1 = Normal tt ∧
  emitted r.2 = emitted w ++ [change_event (Some file) s] ∧
  FStats (this r.2) !! file = Some current ∧
  (∀ err stat,
     FStats (this (manually_stats file current err stat w).2) !! file
     = Some current) ∧
  (∀ h, FStats (this (manually h w).2) !! file = Some current).
Proof.
  intros Hc Hdiff Hobj r. subst r.
  assert (Hneq : strict_neq (mtime current) (mtime s) = true).
  { unfold strict_neq. apply negb_true_iff, Nat.eqb_neq.
    intros Href. apply Hdiff. by rewrite (Hobj Href). }
  assert (Hrun : manually_stats file current None (Some s) w
                 = emit (change_event (Some file) s) w).
  { unfold manually_stats. by rewrite Hneq. }
  rewrite Hrun. simpl. repeat split; try done.
  - intros err stat. by rewrite manually_stats_keeps_this.
  - intros h. by rewrite manually_keeps_this.
Qed.

(** The theorem at the file that was written to after it was cached. *)
Lemma manual_sweep_compares_without_refresh_witness :
  emitted (manually_stats "/tmp/a.txt" snapshot_cached None (Some snapshot_fresh)
             file_touched).2
  = emitted file_touched ++ [change_event (Some "/tmp/a.txt") snapshot_fresh].
Proof.
  refine (proj1 (proj2 (manual_sweep_compares_without_refresh
    file_touched "/tmp/a.txt" snapshot_cached snapshot_fresh _ _ _))).
  - vm_compute. reflexivity.
  - simpl. lia.
  - simpl. discriminate.
Defined.

(** ** The two maps along a run *)

Lemma watch_found p e w :
  disk w !! p = Some e →
  ∃ w',
    watch this_instance p w = (Normal tt, w') ∧
    FSWatchers (this w')
    = <[p := {| watcher_id := fresh w; path := p |}]> (FSWatchers (this w)) ∧
    FStats (this w') = FStats (this w) ∧
    inflight w' = inflight w ++ [(p, cb_watch_stats this_instance p)] ∧
    open_watchers w' = {[fresh w]} ∪ open_watchers w.
Proof.
  intros Hd. unfold watch, fs_stat, fs_watch. run_monad. rewrite Hd.
  eexists. split; [reflexivity|]. by repeat split.
Qed.

Lemma watch_missing p w :
  disk w !! p = None →
  ∃ w',
    watch this_instance p w = (Throw (ENOENT p), w') ∧
    this w' = this w ∧
    inflight w' = inflight w ++ [(p, cb_watch_stats this_instance p)] ∧
    open_watchers w' = open_watchers w.
Proof.
  intros Hd. unfold watch, fs_stat, fs_watch. run_monad. rewrite Hd.
  eexists. split; [reflexivity|]. by repeat split.
Qed.

(** The initial stat of [p] comes back with a snapshot, or with an error. *)
Lemma complete_found i p e w :
  inflight w !! i = Some (p, cb_watch_stats this_instance p) →
  disk w !! p = Some e →
  ∃ s,
    this (step w (op_complete i)) = set_FStats <[p := s]> (this w) ∧
    inflight (step w (op_complete i)) = delete i (inflight w) ∧
    open_watchers (step w (op_complete i)) = open_watchers w.
Proof.
  intros Hi Hd. unfold step, run, complete. rewrite Hi.
  unfold stat_now. run_monad. rewrite Hd. simpl.
  eexists. by repeat split.
Qed.

Lemma complete_lost i p w :
  inflight w !! i = Some (p, cb_watch_stats this_instance p) →
  disk w !! p = None →
  this (step w (op_complete i)) = this w ∧
  inflight (step w (op_complete i)) = delete i (inflight w) ∧
  open_watchers (step w (op_complete i)) = open_watchers w.
Proof.
  intros Hi Hd. unfold step, run, complete. rewrite Hi.
  unfold stat_now. run_monad. rewrite Hd. simpl. by repeat split.
Qed.

Lemma complete_idle i w :
  inflight w !! i = None → step w (op_complete i) = w.
Proof. intros Hi. unfold step, run, complete. by rewrite Hi. Qed.

Lemma flights_after_delete i p (k : Callback) (l : list (string * Callback)) :
  l !! i = Some (p, k) →
  list_to_set l.*1 =@{gset string} {[p]} ∪ list_to_set (delete i l).*1.
Proof.
  revert i. induction l as [|[q c] l IH]; intros [|i]; simpl; try done.
  - by intros [= -> ->].
  - intros H. specialize (IH _ H). set_solver.
Qed.

Lemma step_keeps_registry (w : World) (o : Op) :
  registered_ok w → flights_ok w →
  registered_ok (step w o) ∧ flights_ok (step w o).
Proof.
  intros Hr Hf. destruct o as [files| |p|h|p|h ev fn|h e|i|p e|p].
  - unfold step, run. by rewrite add_inert.
  - unfold step, run.
    destruct (close_spec w) as (w' & -> & Hw & _ & _ & _ & _ & _ & Hi & _).
    simpl. split.
    + intros p h. by rewrite Hw, lookup_empty.
    + unfold flights_ok. by rewrite Hi.
  - unfold step, run. destruct (disk w !! p) as [e|] eqn:Hd.
    + destruct (watch_found p e w Hd) as (w' & -> & Hw & _ & Hi & Ho). simpl. split.
      * intros q h. rewrite Hw, Ho, lookup_insert. case_decide as Hq.
        -- intros [= <-]. simpl. split; [done|set_solver].
        -- intros Hh. destruct (Hr q h Hh). split; [done|set_solver].
      * intros q k. rewrite Hi. intros [Hin|Hin%list_elem_of_singleton]%elem_of_app.
        -- by apply Hf.
        -- by injection Hin as -> ->.
    + destruct (watch_missing p w Hd) as (w' & -> & Ht & Hi & Ho). simpl. split.
      * intros q h. rewrite Ht, Ho. apply Hr.
      * intros q k. rewrite Hi. intros [Hin|Hin%list_elem_of_singleton]%elem_of_app.
        -- by apply Hf.
        -- by injection Hin as -> ->.
  - unfold step, run. destruct (manually_same h w) as (Ht & _ & _ & Ho & _ & Hi).
    split; [intros p h'; rewrite Ht, Ho; apply Hr|].
    unfold flights_ok. by rewrite Hi.
  - unfold step, run. by rewrite reset_throws.
  - unfold step, run. destruct (change_same h ev fn w) as (Ht & _ & _ & Ho & _ & Hi).
    split; [intros p h'; rewrite Ht, Ho; apply Hr|].
    unfold flights_ok. by rewrite Hi.
  - unfold step, run. by rewrite error_throws.
  - destruct (inflight w !! i) as [[p k]|] eqn:Hi; [|by rewrite complete_idle].
    assert (k = cb_watch_stats this_instance p) as ->.
    { apply Hf. by eapply list_elem_of_lookup_2. }
    assert (flights_ok w → ∀ w', inflight w' = delete i (inflight w) → flights_ok w')
      as Hdel.
    { intros _ w' Hw' q k Hin. rewrite Hw' in Hin.
      apply Hf. by eapply list_elem_of_delete_inv. }
    destruct (disk w !! p) as [e|] eqn:Hd.
    + destruct (complete_found i p e w Hi Hd) as (s & Ht & Hi' & Ho).
      split; [|by eapply Hdel].
      intros q h. rewrite Ht, Ho. simpl. apply Hr.
    + destruct (complete_lost i p w Hi Hd) as (Ht & Hi' & Ho).
      split; [|by eapply Hdel].
      intros q h. rewrite Ht, Ho. apply Hr.
  - by unfold step, run.
  - by unfold step, run.
Qed.

Lemma step_keeps_keys (w : World) (o : Op) :
  flights_ok w → keys_in_step w → calm w o = true → keys_in_step (step w o).
Proof.
  unfold keys_in_step.
  intros Hf Hk Hc. destruct o as [files| |p|h|p|h ev fn|h e|i|p e|p].
  - unfold step, run. by rewrite add_inert.
  - unfold step, run. simpl in Hc.
    destruct (close_spec w) as (w' & -> & Hw & Hs & _ & _ & _ & _ & Hi & _).
    simpl. rewrite Hw, Hs, Hi. by destruct (inflight w).
  - unfold step, run. simpl in Hc. apply bool_decide_eq_true in Hc as [e Hd].
    destruct (watch_found p e w Hd) as (w' & -> & Hw & Hs & Hi & _). simpl.
    rewrite Hw, Hs, Hi, dom_insert_L, Hk, fmap_app, list_to_set_app_L. simpl.
    set_solver.
  - unfold step, run. destruct (manually_same h w) as (Ht & _ & _ & _ & _ & Hi).
    by rewrite Ht, Hi.
  - unfold step, run. by rewrite reset_throws.
  - unfold step, run. destruct (change_same h ev fn w) as (Ht & _ & _ & _ & _ & Hi).
    by rewrite Ht, Hi.
  - unfold step, run. by rewrite error_throws.
  - simpl in Hc.
    destruct (inflight w !! i) as [[p k]|] eqn:Hi; [|by rewrite complete_idle].
    assert (k = cb_watch_stats this_instance p) as ->.
    { apply Hf. by eapply list_elem_of_lookup_2. }
    apply bool_decide_eq_true in Hc as [e Hd].
    destruct (complete_found i p e w Hi Hd) as (s & Ht & Hi' & _).
    rewrite Ht, Hi'. simpl. rewrite dom_insert_L, Hk.
    rewrite (flights_after_delete i p _ _ Hi). set_solver.
  - by unfold step, run.
  - by unfold step, run.
Qed.

Lemma boot_ok d : registered_ok (boot d) ∧ flights_ok (boot d) ∧ keys_in_step (boot d).
Proof.
  split; [|split].
  - intros p h. simpl. by rewrite lookup_empty.
  - intros p k. simpl. by intros ?%elem_of_nil.
  - unfold keys_in_step. simpl. set_solver.
Qed.

Lemma exec_keeps_registry os w :
  registered_ok w → flights_ok w →
  registered_ok (exec os w) ∧ flights_ok (exec os w).
Proof.
  revert w. induction os as [|o os IH]; intros w Hr Hf; [done|].
  simpl. destruct (step_keeps_registry w o Hr Hf). by apply IH.
Qed.

Lemma exec_keeps_keys os w :
  registered_ok w → flights_ok w → keys_in_step w →
  calm_run os w = true → keys_in_step (exec os w).
Proof.
  revert w. induction os as [|o os IH]; intros w Hr Hf Hk Hc; [done|].
  simpl in *. apply andb_true_iff in Hc as [Hc Hcs].
  destruct (step_keeps_registry w o Hr Hf).
  apply IH; try done. by apply step_keeps_keys.
Qed.

(** In every reachable world each registered handle is tagged with its key
    and open, and every stat in flight is an initial stat. *)
Lemma reachable_registry w : reachable w → registered_ok w ∧ flights_ok w.
Proof.
  intros (d & os & ->). destruct (boot_ok d) as (Hr & Hf & _).
  by apply exec_keeps_registry.
Qed.




(** * Further properties of the methods *)

(** ** [watch] and its initial stat *)

Lemma watch_found_world p e w :
  disk w !! p = Some e →
  ∃ w',
    watch this_instance p w = (Normal tt, w') ∧
    this w' = set_FSWatchers <[p := {| watcher_id := fresh w; path := p |}]> (this w) ∧
    emitted w' = emitted w ∧ disk w' = disk w ∧
    open_watchers w' = {[fresh w]} ∪ open_watchers w ∧
    fresh w' = S (fresh w) ∧
    inflight w' = inflight w ++ [(p, cb_watch_stats this_instance p)].
Proof.
  intros Hd. unfold watch, fs_stat, fs_watch. run_monad. rewrite Hd.
  eexists. split; [reflexivity|]. by repeat split.
Qed.

Lemma watch_missing_world p w :
  disk w !! p = None →
  ∃ w',
    watch this_instance p w = (Throw (ENOENT p), w') ∧
    this w' = this w ∧ emitted w' = emitted w ∧ disk w' = disk w ∧
    open_watchers w' = open_watchers w ∧ fresh w' = fresh w ∧
    inflight w' = inflight w ++ [(p, cb_watch_stats this_instance p)].
Proof.
  intros Hd. unfold watch, fs_stat, fs_watch. run_monad. rewrite Hd.
  eexists. split; [reflexivity|]. by repeat split.
Qed.

Lemma exec_cons o os w : exec (o :: os) w = exec os (step w o).
Proof. reflexivity. Qed.

Lemma step_watch p w : step w (op_watch p) = (watch this_instance p w).2.
Proof. reflexivity. Qed.

Lemma lookup_last_added {A} (l : list A) (x : A) : (l ++ [x]) !! length l = Some x.
Proof. by rewrite list_lookup_middle. Qed.

Lemma delete_last_added {A} (l : list A) (x : A) : delete (length l) (l ++ [x]) = l.
Proof. induction l as [|y l IH]; simpl; [done|]. by rewrite IH. Qed.

(** The initial stat of [p], completing in a world where [p] is on disk. *)
Lemma complete_found_world i p e w :
  inflight w !! i = Some (p, cb_watch_stats this_instance p) →
  disk w !! p = Some e →
  this (step w (op_complete i))
  = set_FStats <[p := snapshot_of (fresh w) e]> (this w) ∧
  emitted (step w (op_complete i)) = emitted w ∧
  disk (step w (op_complete i)) = disk w ∧
  open_watchers (step w (op_complete i)) = open_watchers w ∧
  fresh (step w (op_complete i)) = S (fresh w) ∧
  inflight (step w (op_complete i)) = delete i (inflight w).
Proof.
  intros Hi Hd. unfold step, run, complete. rewrite Hi.
  unfold stat_now. run_monad. rewrite Hd. simpl. by repeat split.
Qed.

Lemma complete_lost_world i p w :
  inflight w !! i = Some (p, cb_watch_stats this_instance p) →
  disk w !! p = None →
  this (step w (op_complete i)) = this w ∧
  emitted (step w (op_complete i)) = emitted w ∧
  disk (step w (op_complete i)) = disk w ∧
  open_watchers (step w (op_complete i)) = open_watchers w ∧
  fresh (step w (op_complete i)) = fresh w ∧
  inflight (step w (op_complete i)) = delete i (inflight w).
Proof.
  intros Hi Hd. unfold step, run, complete. rewrite Hi.
  unfold stat_now. run_monad. rewrite Hd. simpl. by repeat split.
Qed.

(** X1: [watch] asks for the stat before it calls [fs.watch].  For a path
    that is not on disk [fs.watch] throws [ENOENT] and nothing is registered,
    but the stat stays in flight: if the path appears before the stat comes
    back, the path is cached although it is not watched. *)
Theorem watch_missing_path_still_stats (w : World) (p : string) (e : Entry) :
  disk w !! p = None →
  FSWatchers (this w) !! p = None →
  let w1 := step w (op_watch p) in
  let w2 := exec [op_write p e; op_complete (length (inflight w))] w1 in
  (watch this_instance p w).1 = Throw (ENOENT p) ∧
  this w1 = this w ∧
  open_watchers w1 = open_watchers w ∧
  inflight w1 = inflight w ++ [(p, cb_watch_stats this_instance p)] ∧
  FSWatchers (this w2) !! p = None ∧
  FStats (this w2) !! p = Some (snapshot_of (fresh w) e).
Proof.
  intros Hd Hw w1 w2.
  destruct (watch_missing_world p w Hd) as (w1' & Hrun & Ht & He & Hdk & Ho & Hfr & Hi).
  assert (Hw1 : w1 = w1') by (subst w1; unfold step; simpl; by rewrite Hrun).
  rewrite Hrun, Hw1. simpl. repeat split; try done.
  all: set (wr := step w1' (op_write p e)).
  all: assert (Hi2 : inflight wr !! length (inflight w)
                     = Some (p, cb_watch_stats this_instance p))
         by (subst wr; unfold step; simpl; rewrite Hi; apply lookup_last_added).
  all: assert (Hd2 : disk wr !! p = Some e)
         by (subst wr; unfold step; simpl; apply lookup_insert_eq).
  all: destruct (complete_found_world _ p e wr Hi2 Hd2) as (Ht2 & _).
  all: assert (Hw2 : w2 = step wr (op_complete (length (inflight w))))
         by (subst w2 wr; by rewrite Hw1).
  all: rewrite Hw2, Ht2; simpl.
  - subst wr. unfold step. simpl. by rewrite Ht.
  - rewrite lookup_insert_eq. subst wr. unfold step. simpl. by rewrite Hfr.
Qed.

(** The theorem on an empty disk, for a path created after the call. *)
Lemma watch_missing_path_still_stats_witness :
  disk (boot ∅) !! "/new" = None ∧
  FSWatchers (this (boot ∅)) !! "/new" = None ∧
  FStats (this (exec [op_write "/new" a_txt; op_complete 0]
                     (step (boot ∅) (op_watch "/new")))) !! "/new"
  = Some (snapshot_of 0 a_txt).
Proof.
  assert (H1 : disk (boot ∅) !! "/new" = None) by (vm_compute; reflexivity).
  assert (H2 : FSWatchers (this (boot ∅)) !! "/new" = None) by (vm_compute; reflexivity).
  pose proof (watch_missing_path_still_stats (boot ∅) "/new" a_txt H1 H2) as H.
  cbv zeta in H. split; [exact H1|]. split; [exact H2|]. apply H.
Defined.

(** X2: registering a path that exists and letting its initial stat come
    back stores the new handle under the path and the snapshot of the disk
    entry under the same path; the handle is open, no event is emitted and
    no other stat is left in flight. *)
Theorem watch_then_stat_round_trip (w : World) (p : string) (e : Entry) :
  disk w !! p = Some e →
  let w' := exec [op_watch p; op_complete (length (inflight w))] w in
  (watch this_instance p w).1 = Normal tt ∧
  FSWatchers (this w') = <[p := {| watcher_id := fresh w; path := p |}]> (FSWatchers (this w)) ∧
  FStats (this w') = <[p := snapshot_of (S (fresh w)) e]> (FStats (this w)) ∧
  fresh w ∈ open_watchers w' ∧
  emitted w' = emitted w ∧
  inflight w' = inflight w.
Proof.
  intros Hd w'.
  destruct (watch_found_world p e w Hd) as (w1 & Hrun & Ht & He & Hdk & Ho & Hfr & Hi).
  assert (Hw' : w' = step w1 (op_complete (length (inflight w))))
    by (subst w'; by rewrite exec_cons, step_watch, Hrun).
  assert (Hi1 : inflight w1 !! length (inflight w)
                = Some (p, cb_watch_stats this_instance p))
    by (rewrite Hi; apply lookup_last_added).
  assert (Hd1 : disk w1 !! p = Some e) by (by rewrite Hdk).
  destruct (complete_found_world _ p e w1 Hi1 Hd1) as (Ht2 & He2 & _ & Ho2 & _ & Hi2).
  rewrite Hrun, Hw', Ht2, He2, Ho2, Hi2, Ht, He, Ho, Hi, Hfr. simpl.
  repeat split; try done; [set_solver|apply delete_last_added].
Qed.

(** The theorem for the directory ["/d"] on a new instance. *)
Lemma watch_then_stat_round_trip_witness :
  disk (boot {["/d" := a_dir]}) !! "/d" = Some a_dir ∧
  FStats (this (exec [op_watch "/d"; op_complete 0] (boot {["/d" := a_dir]})))
  = <[ "/d" := snapshot_of 1 a_dir ]> ∅.
Proof.
  assert (H1 : disk (boot {["/d" := a_dir]}) !! "/d" = Some a_dir)
    by (vm_compute; reflexivity).
  pose proof (watch_then_stat_round_trip (boot {["/d" := a_dir]}) "/d" a_dir H1) as H.
  cbv zeta in H. split; [exact H1|]. apply H.
Defined.

(** X3: when the path is deleted between the registration and the return
    of its initial stat, the stat callback does nothing: the path stays
    watched with its open handle, it gets no cache entry, and no event
    ([removed] or other) is emitted. *)
Theorem initial_stat_failure_is_silent (w : World) (p : string) (e : Entry) :
  disk w !! p = Some e →
  let w' := exec [op_watch p; op_unlink p; op_complete (length (inflight w))] w in
  FSWatchers (this w') !! p = Some {| watcher_id := fresh w; path := p |} ∧
  FStats (this w') = FStats (this w) ∧
  fresh w ∈ open_watchers w' ∧
  emitted w' = emitted w ∧
  inflight w' = inflight w.
Proof.
  intros Hd w'.
  destruct (watch_found_world p e w Hd) as (w1 & Hrun & Ht & He & Hdk & Ho & Hfr & Hi).
  set (w2 := step w1 (op_unlink p)).
  assert (Hw' : w' = step w2 (op_complete (length (inflight w))))
    by (subst w' w2; by rewrite exec_cons, step_watch, Hrun).
  assert (Hi2 : inflight w2 !! length (inflight w)
                = Some (p, cb_watch_stats this_instance p))
    by (subst w2; unfold step; simpl; rewrite Hi; apply lookup_last_added).
  assert (Hd2 : disk w2 !! p = None)
    by (subst w2; unfold step; simpl; apply lookup_delete_eq).
  destruct (complete_lost_world _ p w2 Hi2 Hd2) as (Ht3 & He3 & _ & Ho3 & _ & Hi3).
  rewrite Hw', Ht3, He3, Ho3, Hi3. subst w2. unfold step. simpl.
  rewrite Ht, He, Ho, Hi. simpl.
  repeat split; try done;
    [apply lookup_insert_eq|set_solver|apply delete_last_added].
Qed.

(** The theorem for ["/tmp/a.txt"] on a new instance. *)
Lemma initial_stat_failure_is_silent_witness :
  disk (boot {["/tmp/a.txt" := a_txt]}) !! "/tmp/a.txt" = Some a_txt ∧
  FStats (this stat_failed) = ∅ ∧ emitted stat_failed = [].
Proof.
  assert (H1 : disk (boot {["/tmp/a.txt" := a_txt]}) !! "/tmp/a.txt" = Some a_txt)
    by (vm_compute; reflexivity).
  pose proof (initial_stat_failure_is_silent
                (boot {["/tmp/a.txt" := a_txt]}) "/tmp/a.txt" a_txt H1) as H.
  cbv zeta in H. split; [exact H1|]. split; apply H.
Defined.

(** ** [close], once more *)

Lemma close_loop_calls l w :
  calls (forEach (λ kv : string * FSWatcher,
                    if has_close kv.2 then watcher_close kv.2 else ret tt) l w).2
  = calls w ++ (call_watcher_close ∘ watcher_id <$> l.*2).
Proof.
  revert w. induction l as [|[k h] l IH]; intros w; simpl.
  - by rewrite app_nil_r.
  - unfold bind at 1. unfold watcher_close. run_monad.
    rewrite IH. simpl. by rewrite <- app_assoc.
Qed.

Lemma close_world w :
  ∃ w',
    close w = (Normal tt, w') ∧
    this w' = set_FStats (λ _, ∅) (set_FSWatchers (λ _, ∅) (this w)) ∧
    emitted w' = emitted w ++ [close_event] ∧
    disk w' = disk w ∧ fresh w' = fresh w ∧ inflight w' = inflight w ∧
    open_watchers w' = open_watchers w ∖ handle_ids (FSWatchers (this w)) ∧
    calls w' = calls w
               ++ (call_watcher_close ∘ watcher_id <$> (map_to_list (FSWatchers (this w))).*2).
Proof.
  unfold close. unfold bind at 1. unfold get_this.
  pose proof (close_loop_calls (map_to_list (FSWatchers (this w))) w) as Hcalls.
  destruct (close_loop (map_to_list (FSWatchers (this w))) w)
    as (w' & Hl & Ht & He & Hd & Hi & Hf & Ho).
  unfold bind at 1. rewrite Hl in Hcalls |- *. run_monad.
  eexists. split; [reflexivity|]. simpl.
  rewrite Ht, He, Hd, Hi, Hf, Ho. by repeat split.
Qed.

Lemma elem_of_handle_ids n (m : gmap string FSWatcher) :
  n ∈ handle_ids m ↔ ∃ p h, m !! p = Some h ∧ watcher_id h = n.
Proof.
  unfold handle_ids. rewrite elem_of_list_to_set, list_elem_of_fmap. split.
  - intros (h & -> & Hin). apply list_elem_of_fmap in Hin as ([p h'] & -> & Hin).
    exists p, h'. split; [by apply elem_of_map_to_list|done].
  - intros (p & h & Hp & <-). exists h. split; [done|].
    apply list_elem_of_fmap. exists (p, h). split; [done|].
    by apply elem_of_map_to_list.
Qed.

(** X4: [close()] calls [close] on every handle stored in [FSWatchers], so
    none of them is open afterwards; it opens nothing, and it leaves the
    stats in flight where they are (their callbacks will still run). *)
Theorem close_releases_registered_handles (w : World) (p : string) (h : FSWatcher) :
  FSWatchers (this w) !! p = Some h →
  let w' := step w op_close in
  (watcher_id h ∉ open_watchers w') ∧
  call_watcher_close (watcher_id h) ∈ new_calls w w' ∧
  open_watchers w' ⊆ open_watchers w ∧
  inflight w' = inflight w.
Proof.
  intros Hp w'. subst w'. unfold step. simpl.
  destruct (close_world w) as (w' & -> & _ & _ & _ & _ & Hi & Ho & Hc). simpl.
  assert (Hin : watcher_id h ∈ handle_ids (FSWatchers (this w))).
  { apply elem_of_handle_ids. by exists p, h. }
  repeat split; [set_solver| |set_solver|done].
  unfold new_calls. rewrite Hc, drop_app_length.
  apply list_elem_of_fmap. exists h. split; [done|].
  apply list_elem_of_fmap. exists (p, h). split; [done|].
  by apply elem_of_map_to_list.
Qed.

(** The theorem for the handle of the watched directory ["/d"]. *)
Lemma close_releases_registered_handles_witness :
  FSWatchers (this dir_watched) !! "/d" = Some handle_d ∧
  0 ∉ open_watchers (step dir_watched op_close).
Proof.
  assert (H1 : FSWatchers (this dir_watched) !! "/d" = Some handle_d)
    by (vm_compute; reflexivity).
  pose proof (close_releases_registered_handles dir_watched "/d" handle_d H1) as H.
  cbv zeta in H. split; [exact H1|]. apply H.
Defined.

(** X5: a second [close()] right after the first finds no handle to close:
    it makes no call into [fs], leaves the instance, the open handles and
    the stats in flight as the first call left them, and only adds its own
    [close] event. *)
Theorem second_close_only_emits (w : World) :
  let wa := step w op_close in
  let wb := step wa op_close in
  this wb = this wa ∧
  open_watchers wb = open_watchers wa ∧
  inflight wb = inflight wa ∧
  new_calls wa wb = [] ∧
  emitted wb = emitted wa ++ [close_event].
Proof.
  intros wa wb. subst wb wa. unfold step. simpl.
  destruct (close_world w) as (wa & -> & Ht & _). simpl.
  destruct (close_world wa) as (wb & -> & Ht' & He' & _ & _ & Hi' & Ho' & Hc'). simpl.
  assert (Hempty : FSWatchers (this wa) = ∅) by (by rewrite Ht).
  rewrite Hempty in Ho', Hc'. rewrite map_to_list_empty in Hc'. simpl in Hc'.
  repeat split; try done.
  - rewrite Ht', Ht. reflexivity.
  - rewrite Ho'. unfold handle_ids. rewrite map_to_list_empty. simpl. set_solver.
  - unfold new_calls. rewrite Hc', app_nil_r. apply drop_all.
Qed.

(** ** What a run keeps *)

Lemma complete_effect i w :
  let w' := step w (op_complete i) in
  FSWatchers (this w') = FSWatchers (this w) ∧
  retries (this w') = retries (this w) ∧
  maxRetries (this w') = maxRetries (this w) ∧
  ((FStats (this w') = FStats (this w) ∧ (fresh w <= fresh w')%nat) ∨
   (∃ p e, FStats (this w') = <[p := snapshot_of (fresh w) e]> (FStats (this w)) ∧
           fresh w' = S (fresh w))).
Proof.
  unfold step, run, complete.
  destruct (inflight w !! i) as [[p k]|]; simpl; [|repeat split; try done; left; by split].
  unfold stat_now. run_monad.
  destruct (disk w !! p) as [e|]; simpl.
  - destruct k as [[]? | ? ? | ? ?]; simpl.
    + repeat split; try done. right. by exists p0, e.
    + repeat split; try done. left. split; [done|lia].
    + unfold manually_stats. run_monad. destruct (strict_neq _ _); simpl;
        repeat split; try done; left; (split; [done|lia]).
    + unfold change_stats. run_monad. repeat split; try done. right. by exists p0, e.
  - destruct k as [[]? | ? ? | ? ?]; simpl; repeat split; try done; left; by split.
Qed.

Lemma step_keeps_age (w : World) (o : Op) :
  handles_older w → snapshots_older w →
  handles_older (step w o) ∧ snapshots_older (step w o).
Proof.
  intros Hh Hs. destruct o as [files| |p|h|p|h ev fn|h e|i|p e|p].
  - unfold step, run. by rewrite add_inert.
  - unfold step, run. destruct (close_world w) as (w' & -> & Ht & _). simpl. split.
    + intros p h. rewrite Ht. simpl. by rewrite lookup_empty.
    + intros p s. rewrite Ht. simpl. by rewrite lookup_empty.
  - rewrite step_watch. destruct (disk w !! p) as [e|] eqn:Hd.
    + destruct (watch_found_world p e w Hd) as (w' & -> & Ht & _ & _ & _ & Hf & _).
      simpl. split.
      * intros q h. rewrite Ht, Hf. simpl. rewrite lookup_insert. case_decide.
        -- intros [= <-]. simpl. lia.
        -- intros Hq. specialize (Hh q h Hq). lia.
      * intros q s. rewrite Ht, Hf. simpl. intros Hq. specialize (Hs q s Hq). lia.
    + destruct (watch_missing_world p w Hd) as (w' & -> & Ht & _ & _ & _ & Hf & _).
      simpl. split.
      * intros q h. rewrite Ht, Hf. apply Hh.
      * intros q s. rewrite Ht, Hf. apply Hs.
  - unfold step, run. destruct (manually_same h w) as (Ht & _ & _ & _ & Hf & _). split.
    + intros q h'. rewrite Ht, Hf. apply Hh.
    + intros q s. rewrite Ht, Hf. apply Hs.
  - unfold step, run. by rewrite reset_throws.
  - unfold step, run. destruct (change_same h ev fn w) as (Ht & _ & _ & _ & Hf & _). split.
    + intros q h'. rewrite Ht, Hf. apply Hh.
    + intros q s. rewrite Ht, Hf. apply Hs.
  - unfold step, run. by rewrite error_throws.
  - destruct (complete_effect i w) as (Hw & _ & _ & Hc). split.
    + intros q h. rewrite Hw. intros Hq. specialize (Hh q h Hq).
      destruct Hc as [[_ Hf]|(p & e & _ & Hf)]; lia.
    + intros q s. destruct Hc as [[Hst Hf]|(p & e & Hst & Hf)]; rewrite Hst.
      * intros Hq. specialize (Hs q s Hq). lia.
      * rewrite Hf, lookup_insert. case_decide.
        -- intros [= <-]. simpl. lia.
        -- intros Hq. specialize (Hs q s Hq). lia.
  - by unfold step, run.
  - by unfold step, run.
Qed.

Lemma exec_keeps_age os w :
  handles_older w → snapshots_older w →
  handles_older (exec os w) ∧ snapshots_older (exec os w).
Proof.
  revert w. induction os as [|o os IH]; intros w Hh Hs; [done|].
  rewrite exec_cons. destruct (step_keeps_age w o Hh Hs). by apply IH.
Qed.

Lemma boot_age d : handles_older (boot d) ∧ snapshots_older (boot d).
Proof. split; intros p x; simpl; by rewrite lookup_empty. Qed.

(** X6: [watch] does not close the handle it replaces, and [close()] only
    walks the map.  When a path is registered twice, the first handle is
    no longer in [FSWatchers], so [close()] closes the second handle and
    leaves the first one open. *)
Theorem replaced_handle_outlives_close
    (d : gmap string Entry) (os : list Op) (p : string) (e : Entry) :
  let w := exec os (boot d) in
  disk w !! p = Some e →
  let w' := exec [op_watch p; op_watch p; op_close] w in
  FSWatchers (this w') = ∅ ∧
  fresh w ∈ open_watchers w' ∧
  (S (fresh w) ∉ open_watchers w').
Proof.
  intros w Hd w'.
  destruct (boot_age d) as [Hh0 Hs0].
  destruct (exec_keeps_age os (boot d) Hh0 Hs0) as [Hh _]. fold w in Hh.
  destruct (watch_found_world p e w Hd) as (w1 & Hr1 & Ht1 & _ & Hd1 & Ho1 & Hf1 & _).
  assert (Hd1' : disk w1 !! p = Some e) by (by rewrite Hd1).
  destruct (watch_found_world p e w1 Hd1') as (w2 & Hr2 & Ht2 & _ & _ & Ho2 & _).
  destruct (close_world w2) as (w3 & Hr3 & Ht3 & _ & _ & _ & _ & Ho3 & _).
  assert (Hw' : w' = w3).
  { subst w'. rewrite !exec_cons, !step_watch, Hr1. simpl. rewrite Hr2. simpl.
    unfold step. simpl. by rewrite Hr3. }
  rewrite Hw', Ht3, Ho3, Ho2, Ho1, Ht2, Ht1, Hf1. simpl.
  split; [done|].
  assert (Hnot : fresh w ∉ handle_ids
            (<[p:={| watcher_id := S (fresh w); path := p |}]>
               (<[p:={| watcher_id := fresh w; path := p |}]> (FSWatchers (this w))))).
  { rewrite elem_of_handle_ids. intros (q & h & Hq & Hid).
    rewrite lookup_insert in Hq. case_decide.
    - injection Hq as <-. simpl in Hid. lia.
    - rewrite lookup_insert_ne in Hq by done. specialize (Hh q h Hq). lia. }
  assert (Hin : S (fresh w) ∈ handle_ids
            (<[p:={| watcher_id := S (fresh w); path := p |}]>
               (<[p:={| watcher_id := fresh w; path := p |}]> (FSWatchers (this w))))).
  { rewrite elem_of_handle_ids. eexists p, _. split; [apply lookup_insert_eq|done]. }
  set_solver.
Qed.

(** The theorem for ["/d"] on a new instance. *)
Lemma replaced_handle_outlives_close_witness :
  disk (exec [] (boot {["/d" := a_dir]})) !! "/d" = Some a_dir ∧
  0 ∈ open_watchers (exec [op_watch "/d"; op_watch "/d"; op_close]
                          (exec [] (boot {["/d" := a_dir]}))).
Proof.
  assert (H1 : disk (exec [] (boot {["/d" := a_dir]})) !! "/d" = Some a_dir)
    by (vm_compute; reflexivity).
  pose proof (replaced_handle_outlives_close {["/d" := a_dir]} [] "/d" a_dir H1) as H.
  cbv zeta in H. split; [exact H1|]. apply H.
Defined.

(** X10: no method writes [retries] or [maxRetries]: along every run they
    keep the values they had, so on an instance made by the constructor the
    retry map stays empty and [maxRetries] stays 5. *)
Theorem run_keeps_retries (os : list Op) (w : World) (d : gmap string Entry) :
  retries (this (exec os w)) = retries (this w) ∧
  maxRetries (this (exec os w)) = maxRetries (this w) ∧
  retries (this (exec os (boot d))) = ∅ ∧
  maxRetries (this (exec os (boot d))) = 5.
Proof.
  assert (Hstep : ∀ w o, retries (this (step w o)) = retries (this w) ∧
                         maxRetries (this (step w o)) = maxRetries (this w)).
  { intros w0 o. destruct o as [files| |p|h|p|h ev fn|h e|i|p e|p].
    - unfold step, run. by rewrite add_inert.
    - unfold step, run. destruct (close_world w0) as (w' & Hr & Ht & _). rewrite Hr. simpl. by rewrite Ht.
    - rewrite step_watch. destruct (disk w0 !! p) as [e|] eqn:Hd.
      + destruct (watch_found_world p e w0 Hd) as (w' & Hr & Ht & _). rewrite Hr. simpl. by rewrite Ht.
      + destruct (watch_missing_world p w0 Hd) as (w' & Hr & Ht & _). rewrite Hr. simpl. by rewrite Ht.
    - unfold step, run. destruct (manually_same h w0) as (Ht & _). by rewrite Ht.
    - unfold step, run. by rewrite reset_throws.
    - unfold step, run. destruct (change_same h ev fn w0) as (Ht & _). by rewrite Ht.
    - unfold step, run. by rewrite error_throws.
    - by destruct (complete_effect i w0) as (_ & ? & ? & _).
    - by unfold step, run.
    - by unfold step, run. }
  assert (Hrun : ∀ os w, retries (this (exec os w)) = retries (this w) ∧
                         maxRetries (this (exec os w)) = maxRetries (this w)).
  { clear os w. intros os. induction os as [|o os IH]; intros w; [done|].
    rewrite exec_cons. destruct (IH (step w o)) as [-> ->]. apply Hstep. }
  destruct (Hrun os w) as [-> ->]. destruct (Hrun os (boot d)) as [-> ->]. done.
Qed.

(** X9: along every run of a new instance the event stream consists of
    [close] events only, one for each call of [close()]: no [change] and no
    [removed] event is ever emitted. *)
Theorem run_emits_close_events_only (d : gmap string Entry) (os : list Op) :
  emitted (exec os (boot d))
  = replicate (length (List.filter is_op_close os)) close_event.
Proof.
  assert (Hstep : ∀ w o, flights_ok w →
            emitted (step w o)
            = emitted w ++ (if is_op_close o then [close_event] else [])).
  { intros w o Hf. destruct o as [files| |p|h|p|h ev fn|h e|i|p e|p]; simpl;
      rewrite ?app_nil_r.
    - unfold step, run. by rewrite add_inert.
    - unfold step, run. destruct (close_world w) as (w' & Hr & _ & He & _). rewrite Hr. simpl. by rewrite He.
    - rewrite step_watch. destruct (disk w !! p) as [e|] eqn:Hd.
      + destruct (watch_found_world p e w Hd) as (w' & Hr & _ & He & _). rewrite Hr. simpl. by rewrite He.
      + destruct (watch_missing_world p w Hd) as (w' & Hr & _ & He & _). rewrite Hr. simpl. by rewrite He.
    - unfold step, run. destruct (manually_same h w) as (_ & He & _). by rewrite He.
    - unfold step, run. by rewrite reset_throws.
    - unfold step, run. destruct (change_same h ev fn w) as (_ & He & _). by rewrite He.
    - unfold step, run. by rewrite error_throws.
    - destruct (inflight w !! i) as [[p k]|] eqn:Hi; [|by rewrite complete_idle].
      assert (k = cb_watch_stats this_instance p) as ->.
      { apply Hf. by eapply list_elem_of_lookup_2. }
      destruct (disk w !! p) as [e|] eqn:Hd.
      + destruct (complete_found_world i p e w Hi Hd) as (_ & He & _). by rewrite He.
      + destruct (complete_lost_world i p w Hi Hd) as (_ & He & _). by rewrite He.
    - by unfold step, run.
    - by unfold step, run. }
  assert (Hrun : ∀ os w, registered_ok w → flights_ok w →
            emitted (exec os w)
            = emitted w ++ replicate (length (List.filter is_op_close os)) close_event).
  { clear os. intros os. induction os as [|o os IH]; intros w Hr Hf; simpl.
    - by rewrite app_nil_r.
    - destruct (step_keeps_registry w o Hr Hf) as [Hr' Hf'].
      fold (exec os (step w o)). rewrite (IH _ Hr' Hf'), (Hstep w o Hf).
      destruct (is_op_close o); simpl; by rewrite <- app_assoc. }
  destruct (boot_ok d) as (Hr & Hf & _). by rewrite (Hrun os (boot d) Hr Hf).
Qed.

(** ** The sweep and the change handler on every input *)

Lemma manually_all_cases w :
  (FStats (this w) = ∅ ∧ manually None w = (Normal tt, w)) ∨
  (∃ f cur,
     FStats (this w) !! f = Some cur ∧
     manually None w =
     (Throw TypeError,
      set_calls (λ l, l ++ [call_stat (VFunction (cb_manually_stats f cur))
                                      VUndefined]) w)).
Proof.
  unfold manually. run_monad. unfold keys.
  destruct (map_to_list (FStats (this w))) as [|[k v] l] eqn:E.
  - left. split; [by apply map_to_list_empty_iff|done].
  - right. exists k, v.
    assert (Hk : FStats (this w) !! k = Some v).
    { apply elem_of_map_to_list. rewrite E. apply list_elem_of_here. }
    split; [done|]. simpl. unfold bind. by rewrite (test_cached k v).
Qed.

Lemma manually_cases h w :
  manually h w = (Normal tt, w) ∨
  (∃ f cur,
     FStats (this w) !! f = Some cur ∧
     manually h w =
     (Throw TypeError,
      set_calls (λ l, l ++ [call_stat (VFunction (cb_manually_stats f cur))
                                      VUndefined]) w)).
Proof.
  assert (Hall : manually None w = (Normal tt, w) ∨
    (∃ f cur, FStats (this w) !! f = Some cur ∧
       manually None w =
       (Throw TypeError,
        set_calls (λ l, l ++ [call_stat (VFunction (cb_manually_stats f cur))
                                        VUndefined]) w))).
  { destruct (manually_all_cases w) as [[_ H]|H]; [by left|by right]. }
  destruct h as [h|]; [|exact Hall].
  destruct (truthy (path h)) eqn:Hp.
  - rewrite manually_scoped by done.
    destruct (FStats (this w) !! path h) as [cur|] eqn:Hc.
    + right. exists (path h), cur. split; [done|]. by apply test_cached.
    + left. by apply test_unknown.
  - assert (manually (Some h) w = manually None w) as ->; [|exact Hall].
    unfold manually. run_monad. by rewrite Hp.
Qed.

(** X7: a sweep without a handle goes over the keys of [FStats].  On an
    empty cache it returns and changes nothing; otherwise it stops at the
    first cached path with a [TypeError] from [fs.stat], having made that one
    call and nothing else.  A handle whose path is empty is treated like no
    handle. *)
Theorem sweep_of_whole_cache (w : World) (id : nat) :
  ((FStats (this w) = ∅ ∧ manually None w = (Normal tt, w)) ∨
   (∃ f cur,
      FStats (this w) !! f = Some cur ∧
      manually None w =
      (Throw TypeError,
       set_calls (λ l, l ++ [call_stat (VFunction (cb_manually_stats f cur))
                                       VUndefined]) w))) ∧
  manually (Some {| watcher_id := id; path := "" |}) w = manually None w.
Proof. split; [apply manually_all_cases|reflexivity]. Qed.

(** X8: whatever the handle, the event kind and the file name, the change
    handler ends in a [TypeError] after exactly one call of [fs.stat] whose
    path argument is not a string (the sweep's callback for a cached path,
    or the module [fs]); it emits nothing, queues nothing and leaves both
    maps as they were. *)
Theorem change_always_throws
    (h : FSWatcher) (ev : string) (filename : option string) (w : World) :
  ∃ a1 a2,
    change h ev filename w
    = (Throw TypeError, set_calls (λ l, l ++ [call_stat a1 a2]) w) ∧
    (a1 = VFsModule ∨
     ∃ f cur, a1 = VFunction (cb_manually_stats f cur) ∧
              FStats (this w) !! f = Some cur).
Proof.
  destruct (truthy_opt filename) eqn:Hf.
  - destruct filename as [f|]; [|done]. simpl in Hf.
    eexists _, _. split; [by apply change_named_throws|by left].
  - unfold change. rewrite Hf. simpl. unfold bind at 1.
    destruct (manually_cases (Some h) w) as [->|(f & cur & Hc & ->)].
    + eexists _, _. split; [apply fs_stat_module|by left].
    + eexists _, _. split; [reflexivity|]. right. by exists f, cur.
Qed.

(** ** [add], the constructor and [Notify.watch] *)

(** X11: [add] registers nothing, whatever it is given.  For a single path
    and for a non-empty array calling the undefined truth test throws a
    [TypeError]; only the empty array returns normally.  In each case the
    world is left exactly as it was: no stat, no [fs.watch], no event. *)
Theorem add_never_registers (files : Files) (w : World) :
  (add files w).2 = w ∧
  (add files w).1
  = match files with
    | path_array [] => Normal tt
    | _ => Throw TypeError
    end.
Proof. by destruct files as [p|[|p ps]]. Qed.

(** X12: the constructor writes the four fields and, when it is given
    files, calls [add], which throws.  So [Notify.watch(file, callback)]
    always ends in a [TypeError] before the callback is subscribed, leaving
    an instance with empty maps and nothing else done; without files the
    constructor returns normally. *)
Theorem Notify_watch_throws (file : string) (subscribe : M unit) (w : World) :
  let empty := {| FSWatchers := ∅; FStats := ∅; retries := ∅; maxRetries := 5 |} in
  Notify_watch file subscribe w = (Throw TypeError, set_this (λ _, empty) w) ∧
  new_Notify (Some (path_array [file])) w = (Throw TypeError, set_this (λ _, empty) w) ∧
  new_Notify None w = (Normal tt, set_this (λ _, empty) w).
Proof. done. Qed.

(** ** Comparison by identity in the sweep *)

(** X13: the sweep's callback compares the cached and the new [mtime] with
    [!==], that is as objects.  Every stat makes a new [Date], so the
    callback, handed the answer of a new stat of a cached path, emits a
    [change] for it in every case, also when the file was not modified. *)
Theorem sweep_callback_emits_for_every_new_stat
    (d : gmap string Entry) (os : list Op)
    (file : string) (current : Stats) (e : Entry) :
  let w := exec os (boot d) in
  FStats (this w) !! file = Some current →
  disk w !! file = Some e →
  let r := (res <- stat_now file ;; manually_stats file current res.1 res.2) w in
  r.1 = Normal tt ∧
  emitted r.2 = emitted w ++ [change_event (Some file) (snapshot_of (fresh w) e)] ∧
  this r.2 = this w.
Proof.
  intros w Hc Hd r.
  destruct (boot_age d) as [Hh0 Hs0].
  destruct (exec_keeps_age os (boot d) Hh0 Hs0) as [_ Hs]. fold w in Hs.
  specialize (Hs file current Hc).
  subst r. unfold bind, stat_now. rewrite Hd. simpl.
  unfold manually_stats, strict_neq. simpl.
  assert ((date_ref (mtime current) =? fresh w)%nat = false) as ->
    by (apply Nat.eqb_neq; lia).
  done.
Qed.

(** The theorem for ["/tmp/a.txt"], watched, cached and not modified since. *)
Lemma sweep_callback_emits_for_every_new_stat_witness :
  FStats (this file_watched) !! "/tmp/a.txt" = Some snapshot_cached ∧
  disk file_watched !! "/tmp/a.txt" = Some a_txt ∧
  emitted ((res <- stat_now "/tmp/a.txt" ;;
            manually_stats "/tmp/a.txt" snapshot_cached res.1 res.2) file_watched).2
  = emitted file_watched
    ++ [change_event (Some "/tmp/a.txt") (snapshot_of (fresh file_watched) a_txt)].
Proof.
  assert (H1 : FStats (this file_watched) !! "/tmp/a.txt" = Some snapshot_cached)
    by (vm_compute; reflexivity).
  assert (H2 : disk file_watched !! "/tmp/a.txt" = Some a_txt)
    by (vm_compute; reflexivity).
  pose proof (sweep_callback_emits_for_every_new_stat
                {["/tmp/a.txt" := a_txt]} [op_watch "/tmp/a.txt"; op_complete 0]
                "/tmp/a.txt" snapshot_cached a_txt H1 H2) as H.
  cbv zeta in H. split; [exact H1|]. split; [exact H2|]. apply H.
Defined.

(** ** Only [close] removes entries *)

Lemma step_keeps_entries (w : World) (o : Op) :
  is_op_close o = false →
  dom (FSWatchers (this w)) ⊆ dom (FSWatchers (this (step w o))) ∧
  dom (FStats (this w)) ⊆ dom (FStats (this (step w o))).
Proof.
  intros Ho. destruct o as [files| |p|h|p|h ev fn|h e|i|p e|p].
  - unfold step, run. by rewrite add_inert.
  - done.
  - rewrite step_watch. destruct (disk w !! p) as [e|] eqn:Hd.
    + destruct (watch_found_world p e w Hd) as (w' & Hr & Ht & _).
      rewrite Hr. simpl. rewrite Ht. simpl. rewrite dom_insert_L.
      split; set_solver.
    + destruct (watch_missing_world p w Hd) as (w' & Hr & Ht & _).
      rewrite Hr. simpl. by rewrite Ht.
  - unfold step, run. destruct (manually_same h w) as (Ht & _). by rewrite Ht.
  - unfold step, run. by rewrite reset_throws.
  - unfold step, run. destruct (change_same h ev fn w) as (Ht & _). by rewrite Ht.
  - unfold step, run. by rewrite error_throws.
  - destruct (complete_effect i w) as (Hw & _ & _ & Hc). rewrite Hw. split; [done|].
    destruct Hc as [[-> _]|(p & e & -> & _)]; [done|].
    rewrite dom_insert_L. set_solver.
  - by unfold step, run.
  - by unfold step, run.
Qed.

(** X14: [reset] and [error] throw before they delete anything, and no
    other method deletes: along a run without [close()] no path ever leaves
    [FSWatchers] or [FStats], whatever notifications, errors, resets, sweeps
    and file-system changes occur. *)
Theorem only_close_unregisters (os : list Op) (w : World) :
  forallb (λ o, negb (is_op_close o)) os = true →
  dom (FSWatchers (this w)) ⊆ dom (FSWatchers (this (exec os w))) ∧
  dom (FStats (this w)) ⊆ dom (FStats (this (exec os w))).
Proof.
  revert w. induction os as [|o os IH]; intros w Hos; [done|].
  simpl in Hos. apply andb_true_iff in Hos as [Ho Hos].
  apply negb_true_iff in Ho.
  rewrite exec_cons.
  destruct (step_keeps_entries w o Ho) as [H1 H2].
  destruct (IH (step w o) Hos) as [H3 H4].
  split; set_solver.
Qed.

(** The theorem for the watched file after it is deleted, its handle
    reports an error and it is reset. *)
Lemma only_close_unregisters_witness :
  let os := [op_unlink "/tmp/a.txt"; op_error handle_a (ENOENT "/tmp/a.txt");
             op_reset "/tmp/a.txt"] in
  forallb (λ o, negb (is_op_close o)) os = true ∧
  dom (FSWatchers (this file_watched)) ⊆ dom (FSWatchers (this (exec os file_watched))).
Proof.
  intros os.
  assert (H1 : forallb (λ o, negb (is_op_close o)) os = true) by reflexivity.
  split; [exact H1|]. exact (proj1 (only_close_unregisters os file_watched H1)).
Defined.
